(** * TrickHLA: lag compensation, ownership script and thread coordinator

    A shallow embedding of
    - [SpaceFOM/RefFrameLagCompInteg.cpp] (initialize, send and receive
      lag compensation),
    - the inline setters of [SpaceFOM/PhysicalEntityLagCompInteg.hh],
    - [models/sine/src/SineOwnershipHandler.cpp] (initialize_callback),
    - the interface declared in [TrickHLA/TrickThreadCoordinator.hh].

    A C++ [double] is a binary64 value: Rocq's primitive [float], with
    its IEEE comparison and arithmetic.  Member functions that mutate
    [*this] are programs of a small state monad that also records the
    calls made on collaborators and can end the process
    ([DebugHandler::terminate_with_message]). *)

From Stdlib Require Import ZArith Floats Lia Bool.
From stdpp Require Import base strings list gmap.

Local Open Scope Z_scope.

(** ** Doubles *)

Abbreviation double := float.

(** [double v[3]] *)
Definition vec3 : Type := double * double * double.

(** ** Messages built with [operator<<] *)

Inductive msg_part : Type :=
| MStr (s : string)
| MLine (n : Z)
| MDouble (x : double)
| MEndl.

Definition message : Type := list msg_part.

(** ** The monad of member functions

    A program receives the object state and yields either a value and
    the new state, or the message the process was terminated with;
    in both cases together with the collaborator calls made, oldest
    first. *)

Inductive result (St A : Type) : Type :=
| Returned (a : A) (s : St)
| Terminated (msg : message).

Arguments Returned {St A} a s.
Arguments Terminated {St A} msg.

Section Monad.
Context {E St : Type}.

Definition M (A : Type) : Type := St -> result St A * list E.

Definition ret {A} (a : A) : M A := fun s => (Returned a s, []).

Definition bind {A B} (m : M A) (f : A -> M B) : M B :=
  fun s =>
    match m s with
    | (Returned a s', t) =>
        let '(r, t') := f a s' in (r, t ++ t')
    | (Terminated msg, t) => (Terminated msg, t)
    end.

Definition gets {A} (proj : St -> A) : M A := fun s => (Returned (proj s) s, []).

Definition modify (f : St -> St) : M unit := fun s => (Returned tt (f s), []).

Definition emit (e : E) : M unit := fun s => (Returned tt s, [e]).

(** [DebugHandler::terminate_with_message]: does not return. *)
Definition terminate_with_message {A} (msg : message) : M A :=
  fun _ => (Terminated msg, []).

(** [if ( c ) { body }] *)
Definition when (c : bool) (body : M unit) : M unit :=
  if c then body else ret tt.

Definition trace_of {A} (r : result St A * list E) : list E := snd r.

Definition final_state {A} (r : result St A * list E) : option St :=
  match fst r with Returned _ s => Some s | Terminated _ => None end.
End Monad.

Arguments M : clear implicits.

Declare Scope prog_scope.
Delimit Scope prog_scope with prog.
Notation "x <- m ;; k" := (bind m (fun x => k))
  (at level 100, m at next level, right associativity) : prog_scope.
Notation "m ;;; k" := (bind m (fun _ => k))
  (at level 100, right associativity) : prog_scope.

(** ** SpaceFOM lag compensation *)

Module SpaceFOM.

(** [SpaceFOM::QuaternionData] (used through [lag_comp_data.att] and
    [Q_dot]). Modelled from the spec: the header QuaternionData.hh is
    not part of the sources; the spec gives a scalar and a vector[3]. *)
Record QuaternionData : Type := mkQuaternionData {
  scalar : double;
  vector : vec3
}.

(** [SpaceFOM::SpaceTimeCoordinateData]. Modelled from the spec: the
    header SpaceTimeCoordinateData.hh is not part of the sources; the
    spec lists position[3], velocity[3], attitude quaternion, angular
    velocity[3] and time, and the source reads the fields [att] and
    [ang_vel]. *)
Record SpaceTimeCoordinateData : Type := mkSpaceTimeCoordinateData {
  pos : vec3;
  vel : vec3;
  att : QuaternionData;
  ang_vel : vec3;
  time : double
}.

(** [SpaceFOM::RefFrameBase], as far as the compensator touches it.
    Modelled from the spec: the class is not part of the sources; it
    holds the frame's working state and the buffer that is published
    and received. *)
Record RefFrameBase : Type := mkRefFrameBase {
  working_data : SpaceTimeCoordinateData;
  packing_data : SpaceTimeCoordinateData
}.

(** [TrickHLA::Attribute], as far as the compensator touches it. *)
Record Attribute : Type := mkAttribute {
  received : bool
}.

(** The object state of a [RefFrameLagCompInteg]: the members declared
    in RefFrameLagCompBase.hh, and the integration settings (declared
    as in PhysicalEntityLagCompInteg.hh). *)
Record RefFrameLagCompInteg : Type := mkRefFrameLagCompInteg {
  debug : bool;
  ref_frame : RefFrameBase;
  state_attr : Attribute;
  compensate_dt : double;
  lag_comp_data : SpaceTimeCoordinateData;
  Q_dot : QuaternionData;
  integ_t : double;
  integ_dt : double;
  integ_tol : double
}.

Definition with_ref_frame (rf : RefFrameBase) (c : RefFrameLagCompInteg) :=
  mkRefFrameLagCompInteg (debug c) rf (state_attr c) (compensate_dt c)
    (lag_comp_data c) (Q_dot c) (integ_t c) (integ_dt c) (integ_tol c).

Definition with_compensate_dt (dt : double) (c : RefFrameLagCompInteg) :=
  mkRefFrameLagCompInteg (debug c) (ref_frame c) (state_attr c) dt
    (lag_comp_data c) (Q_dot c) (integ_t c) (integ_dt c) (integ_tol c).

Definition with_lag_comp_data (d : SpaceTimeCoordinateData)
    (c : RefFrameLagCompInteg) :=
  mkRefFrameLagCompInteg (debug c) (ref_frame c) (state_attr c)
    (compensate_dt c) d (Q_dot c) (integ_t c) (integ_dt c) (integ_tol c).

Definition with_Q_dot (q : QuaternionData) (c : RefFrameLagCompInteg) :=
  mkRefFrameLagCompInteg (debug c) (ref_frame c) (state_attr c)
    (compensate_dt c) (lag_comp_data c) q (integ_t c) (integ_dt c)
    (integ_tol c).

(** Modelled from the spec: [RefFrameBase::pack_from_working_data]
    (not part of the sources) copies the working state to the publish
    buffer. *)
Definition packed (c : RefFrameLagCompInteg) : RefFrameLagCompInteg :=
  with_ref_frame
    (mkRefFrameBase (working_data (ref_frame c)) (working_data (ref_frame c)))
    c.

(** Modelled from the spec: [RefFrameBase::unpack_into_working_data]
    (not part of the sources; at its call: "Move the unpacked data into
    the working data"). The unpack routines use the attribute references
    (RefFrameLagCompBase.hh, lines 97-99): the buffer is copied to the
    working state when the state attribute was received, and the working
    state is left as it is when it was not (spec, section 8, scenario
    6). *)
Definition unpacked (c : RefFrameLagCompInteg) : RefFrameLagCompInteg :=
  if received (state_attr c) then
    with_ref_frame
      (mkRefFrameBase (packing_data (ref_frame c)) (packing_data (ref_frame c)))
      c
  else c.

(** Modelled from the spec: [load_lag_comp_data] (not part of the
    sources; at its call: "Copy the current RefFrame state over to the
    lag compensated state") loads the buffer into [lag_comp_data]. *)
Definition loaded (c : RefFrameLagCompInteg) : RefFrameLagCompInteg :=
  with_lag_comp_data (packing_data (ref_frame c)) c.

(** Modelled from the spec: [unload_lag_comp_data] (not part of the
    sources; at its call: "Copy the compensated state to the packing
    data") writes [lag_comp_data] to the buffer. *)
Definition unloaded (c : RefFrameLagCompInteg) : RefFrameLagCompInteg :=
  with_ref_frame
    (mkRefFrameBase (working_data (ref_frame c)) (lag_comp_data c)) c.

(** What the compensator consumes from the framework: the federate's
    scenario time and lookahead (seconds), and whether the debug
    handler shows trace-level lag compensation output. *)
Record Framework : Type := mkFramework {
  scenario_time : double;
  lookahead_seconds : double;
  show_trace : bool
}.

(** The parts a concrete compensator supplies: [compensate] is pure
    virtual in RefFrameLagCompBase.hh, and the quaternion derivative
    lives in QuaternionData.c. *)
Class Strategy : Type := mkStrategy {
  compensate_impl :
    double -> double -> RefFrameLagCompInteg -> RefFrameLagCompInteg * Z;
  derivative_first_impl : QuaternionData -> vec3 -> QuaternionData
}.

(** Calls on collaborators, as they appear in a run. *)
Inductive event : Type :=
| Ev_pack_from_working_data
| Ev_load_lag_comp_data
| Ev_derivative_first (q : QuaternionData) (w : vec3)
| Ev_compensate (t_begin t_end : double)
| Ev_unload_lag_comp_data
| Ev_unpack_into_working_data
| Ev_base_initialize
| Ev_cout (msg : message)
| Ev_print_lag_comp_data.

(** Diagnostic output, as opposed to the data flow. *)
Definition is_diagnostic (e : event) : bool :=
  match e with
  | Ev_cout _ | Ev_print_lag_comp_data => true
  | _ => false
  end.

Definition is_compensate (e : event) : bool :=
  match e with Ev_compensate _ _ => true | _ => false end.

Definition data_flow (t : list event) : list event :=
  filter (fun e => is_diagnostic e = false) t.

Abbreviation Prog := (M event RefFrameLagCompInteg).

Section Members.
Context (fw : Framework) {strategy : Strategy}.

Local Open Scope prog_scope.

Definition pack_from_working_data : Prog unit :=
  emit Ev_pack_from_working_data ;;; modify packed.

Definition unpack_into_working_data : Prog unit :=
  emit Ev_unpack_into_working_data ;;; modify unpacked.

Definition load_lag_comp_data : Prog unit :=
  emit Ev_load_lag_comp_data ;;; modify loaded.

Definition unload_lag_comp_data : Prog unit :=
  emit Ev_unload_lag_comp_data ;;; modify unloaded.

(** Modelled from the spec: [RefFrameBase::get_time] (not part of
    the sources) is the data time on the received record. *)
Definition get_time : Prog double :=
  gets (fun c => time (packing_data (ref_frame c))).

Definition get_scenario_time : Prog double := ret (scenario_time fw).

Definition get_lookahead_seconds : Prog double :=
  ret (lookahead_seconds fw).

Definition DebugHandler_show : Prog bool := ret (show_trace fw).

Definition is_received : Prog bool :=
  gets (fun c => received (state_attr c)).

(** [this->Q_dot.derivative_first( att, ang_vel )] *)
Definition Q_dot_derivative_first (q : QuaternionData) (w : vec3)
    : Prog unit :=
  emit (Ev_derivative_first q w) ;;;
  modify (with_Q_dot (derivative_first_impl q w)).

(** [this->compensate( t_begin, t_end )], an [int] status. *)
Definition compensate (t_begin t_end : double) : Prog Z :=
  emit (Ev_compensate t_begin t_end) ;;;
  (fun c => let '(c', status) := compensate_impl t_begin t_end c in
            (Returned status c', [])).

Definition print_lag_comp_data : Prog unit := emit Ev_print_lag_comp_data.

Definition cout (msg : message) : Prog unit := emit (Ev_cout msg).

(** Modelled from the spec: [RefFrameLagCompBase::initialize] (not
    part of the sources) has no failure of its own. *)
Definition RefFrameLagCompBase_initialize : Prog unit :=
  emit Ev_base_initialize.

(** [RefFrameLagCompInteg::initialize], lines 73-92. *)
Definition initialize : Prog unit :=
  dt <- gets integ_dt ;;
  tol <- gets integ_tol ;;
  when (dt <? tol)%float
    (terminate_with_message
       [ MStr "SpaceFOM::RefFrameLagCompInteg::initialize():"; MLine 79;
         MEndl;
         MStr " ERROR: Tolerance must be less that the dt!: dt = ";
         MDouble dt; MStr "; tolerance = "; MDouble tol; MEndl ]) ;;;
  RefFrameLagCompBase_initialize.

(** [RefFrameLagCompInteg::send_lag_compensation], lines 97-141. *)
Definition send_lag_compensation : Prog unit :=
  begin_t <- get_scenario_time ;;
  la <- get_lookahead_seconds ;;
  modify (with_compensate_dt la) ;;;
  cdt <- gets compensate_dt ;;
  let end_t := (begin_t + cdt)%float in
  show <- DebugHandler_show ;;
  when show
    (now <- get_scenario_time ;;
     cdt' <- gets compensate_dt ;;
     cout [ MStr "****** RefFrameLagCompInteg::send_lag_compensation():";
            MLine 109; MEndl;
            MStr " scenario-time:"; MDouble now; MEndl;
            MStr "     lookahead:"; MDouble cdt'; MEndl;
            MStr " adjusted-time:"; MDouble end_t; MEndl ]) ;;;
  pack_from_working_data ;;;
  load_lag_comp_data ;;;
  q <- gets (fun c => att (lag_comp_data c)) ;;
  w <- gets (fun c => ang_vel (lag_comp_data c)) ;;
  Q_dot_derivative_first q w ;;;
  dbg <- gets debug ;;
  when dbg
    (cout [ MStr "Send data before compensation: "; MEndl ] ;;;
     print_lag_comp_data) ;;;
  compensate begin_t end_t ;;;
  dbg' <- gets debug ;;
  when dbg'
    (cout [ MStr "Send data after compensation: "; MEndl ] ;;;
     print_lag_comp_data) ;;;
  unload_lag_comp_data.

(** [RefFrameLagCompInteg::receive_lag_compensation], lines 146-197. *)
Definition receive_lag_compensation : Prog unit :=
  end_t <- get_scenario_time ;;
  data_t <- get_time ;;
  modify (with_compensate_dt (end_t - data_t)%float) ;;;
  show <- DebugHandler_show ;;
  when show
    (cdt <- gets compensate_dt ;;
     cout [ MStr "******* RefFrameLagCompInteg::receive_lag_compensation():";
            MLine 157; MEndl;
            MStr "  scenario-time:"; MDouble end_t; MEndl;
            MStr "      data-time:"; MDouble data_t; MEndl;
            MStr " comp-time-step:"; MDouble cdt; MEndl ]) ;;;
  rcv <- is_received ;;
  when rcv
    (load_lag_comp_data ;;;
     q <- gets (fun c => att (lag_comp_data c)) ;;
     w <- gets (fun c => ang_vel (lag_comp_data c)) ;;
     Q_dot_derivative_first q w ;;;
     dbg <- gets debug ;;
     when dbg
       (cout [ MStr "Receive data before compensation: "; MEndl ] ;;;
        print_lag_comp_data) ;;;
     compensate data_t end_t ;;;
     dbg' <- gets debug ;;
     when dbg'
       (cout [ MStr "Receive data after compensation: "; MEndl ] ;;;
        print_lag_comp_data)) ;;;
  unload_lag_comp_data ;;;
  unpack_into_working_data.

(** The state handed to [compensate] on the send side. *)
Definition send_input (c : RefFrameLagCompInteg) : RefFrameLagCompInteg :=
  let c1 := loaded (packed (with_compensate_dt (lookahead_seconds fw) c)) in
  with_Q_dot
    (derivative_first_impl (att (lag_comp_data c1)) (ang_vel (lag_comp_data c1)))
    c1.

(** The state handed to [compensate] on the receive side. *)
Definition receive_input (c : RefFrameLagCompInteg) : RefFrameLagCompInteg :=
  let dt := (scenario_time fw - time (packing_data (ref_frame c)))%float in
  let c1 := loaded (with_compensate_dt dt c) in
  with_Q_dot
    (derivative_first_impl (att (lag_comp_data c1)) (ang_vel (lag_comp_data c1)))
    c1.

End Members.

(** *** The integration settings of [PhysicalEntityLagCompInteg] *)

Module PhysicalEntity.

(** [PhysicalEntityLagCompInteg]: the base-class part (the class
    [PhysicalEntityLagCompBase] is not part of the sources) and the
    three members the header declares. *)
Record PhysicalEntityLagCompInteg (Base : Type) : Type :=
  mkPhysicalEntityLagCompInteg {
    base : Base;
    integ_t : double;
    integ_dt : double;
    integ_tol : double
  }.

Arguments mkPhysicalEntityLagCompInteg {Base}.
Arguments base {Base}.
Arguments integ_t {Base}.
Arguments integ_dt {Base}.
Arguments integ_tol {Base}.

Section Setters.
Context {Base : Type}.

Abbreviation Prog := (M event (PhysicalEntityLagCompInteg Base)).

(** [void set_integ_dt( double dt ){ integ_dt = dt; }] *)
Definition set_integ_dt (dt : double) : Prog unit :=
  modify (fun c =>
    mkPhysicalEntityLagCompInteg (base c) (integ_t c) dt (integ_tol c)).

(** [void set_integ_tolerance( double tol ){ integ_tol = tol; }] *)
Definition set_integ_tolerance (tol : double) : Prog unit :=
  modify (fun c =>
    mkPhysicalEntityLagCompInteg (base c) (integ_t c) (integ_dt c) tol).
End Setters.

(** The relation the spec asks for at initialize time,
    [integ_dt > integ_tol > 0], on doubles. *)
Definition config_ok {Base} (c : PhysicalEntityLagCompInteg Base) : bool :=
  ((integ_tol c <? integ_dt c) && (0 <? integ_tol c))%float.

End PhysicalEntity.

(** [integ_dt > integ_tol > 0] for the reference frame compensator. *)
Definition config_ok (c : RefFrameLagCompInteg) : bool :=
  ((integ_tol c <? integ_dt c) && (0 <? integ_tol c))%float.

End SpaceFOM.

(** ** The example ownership handler *)

Module TrickHLAModel.

#[local] Set Warnings "-inexact-float".

Inductive Action : Type := PULL | PUSH.

(** Modelled from the spec: an ownership request (the class
    [TrickHLA::OwnershipHandler] is not part of the sources); an absent
    attribute name means all attributes, an absent time means as soon
    as possible. *)
Record OwnershipRequest : Type := mkOwnershipRequest {
  attribute_name : option string;
  action : Action;
  request_time : option double
}.

(** [TrickHLA::Object], as far as the handler reads it. *)
Record Object : Type := mkObject {
  attribute_FOM_names : list string
}.

(** Modelled from the spec: the handler owns its pending request queue,
    in insertion order, and knows its object once the callback is
    initialized. *)
Record SineOwnershipHandler : Type := mkSineOwnershipHandler {
  object : option Object;
  requests : list OwnershipRequest
}.

Abbreviation Prog := (M Empty_set SineOwnershipHandler).

Local Open Scope prog_scope.

(** Modelled from the spec: a request is appended to the queue. *)
Definition enqueue (r : OwnershipRequest) : Prog unit :=
  modify (fun h => mkSineOwnershipHandler (object h) (requests h ++ [r])).

(** Modelled from the spec: the four shapes of [pull_ownership] and of
    [push_ownership] (C++ overloads of one name each). *)
Definition pull_ownership : Prog unit :=
  enqueue (mkOwnershipRequest None PULL None).
Definition pull_ownership_at (t : double) : Prog unit :=
  enqueue (mkOwnershipRequest None PULL (Some t)).
Definition pull_ownership_attr (name : string) : Prog unit :=
  enqueue (mkOwnershipRequest (Some name) PULL None).
Definition pull_ownership_attr_at (name : string) (t : double) : Prog unit :=
  enqueue (mkOwnershipRequest (Some name) PULL (Some t)).

Definition push_ownership : Prog unit :=
  enqueue (mkOwnershipRequest None PUSH None).
Definition push_ownership_at (t : double) : Prog unit :=
  enqueue (mkOwnershipRequest None PUSH (Some t)).
Definition push_ownership_attr (name : string) : Prog unit :=
  enqueue (mkOwnershipRequest (Some name) PUSH None).
Definition push_ownership_attr_at (name : string) (t : double) : Prog unit :=
  enqueue (mkOwnershipRequest (Some name) PUSH (Some t)).

(** Modelled from the spec: [OwnershipHandler::initialize_callback]
    binds the handler to its object. *)
Definition OwnershipHandler_initialize_callback (obj : Object) : Prog unit :=
  modify (fun h => mkSineOwnershipHandler (Some obj) (requests h)).

Definition get_attribute_FOM_names : Prog (list string) :=
  gets (fun h => match object h with
                 | Some o => attribute_FOM_names o
                 | None => []
                 end).

(** [for ( unsigned int i = 0; i < names.size(); i++ ) body( names[i] )] *)
Fixpoint for_each (names : list string) (body : string -> Prog unit)
    : Prog unit :=
  match names with
  | [] => ret tt
  | n :: rest => body n ;;; for_each rest body
  end.

(** The body of [SineOwnershipHandler::initialize_callback] for a given
    value of the switch. *)
Definition initialize_callback_case (test_case : Z) (obj : Object)
    : Prog unit :=
  OwnershipHandler_initialize_callback obj ;;;
  attr_FOM_names <- get_attribute_FOM_names ;;
  match test_case with
  | 0 =>
      pull_ownership ;;;
      pull_ownership_at 3.0 ;;;
      pull_ownership_at 5.0 ;;;
      pull_ownership_attr "Time" ;;;
      pull_ownership_attr_at "Value" 6.1 ;;;
      for_each attr_FOM_names (fun n => pull_ownership_attr_at n 7.0)
  | 1 =>
      push_ownership ;;;
      push_ownership_at 3.0 ;;;
      push_ownership_at 5.0 ;;;
      push_ownership_attr "Time" ;;;
      push_ownership_attr_at "Value" 6.1 ;;;
      for_each attr_FOM_names (fun n => push_ownership_attr_at n 7.0)
  | 2 =>
      push_ownership ;;;
      pull_ownership_at 3.0 ;;;
      push_ownership_at 5.0 ;;;
      pull_ownership_at 7.0 ;;;
      push_ownership_attr_at "Value" 9.0
  | _ => ret tt
  end.

(** [const int TEST_CASE = 2;] *)
Definition TEST_CASE : Z := 2.

(** [SineOwnershipHandler::initialize_callback], lines 66-126. *)
Definition initialize_callback (obj : Object) : Prog unit :=
  initialize_callback_case TEST_CASE obj.

(** *** The framework's side of the queue

    Modelled from the spec: the framework drains the queue at matching
    scenario times; requests with equal scheduled time fire in
    insertion order and an as-soon-as-possible request fires before
    any timed one. *)

Definition due (now : double) (r : OwnershipRequest) : bool :=
  match request_time r with
  | None => true
  | Some t => (t <=? now)%float
  end.

(** [fires_no_later a b]: [a] does not fire after [b]. *)
Definition fires_no_later (a b : OwnershipRequest) : bool :=
  match request_time a, request_time b with
  | None, _ => true
  | Some _, None => false
  | Some ta, Some tb => (ta <=? tb)%float
  end.

(** Insertion behind every request that does not fire later. *)
Fixpoint schedule_insert (r : OwnershipRequest) (l : list OwnershipRequest)
    : list OwnershipRequest :=
  match l with
  | [] => [r]
  | e :: l' =>
      if fires_no_later e r then e :: schedule_insert r l' else r :: e :: l'
  end.

Definition firing_order (q : list OwnershipRequest) : list OwnershipRequest :=
  fold_left (fun acc r => schedule_insert r acc) q [].

(** One framework cycle at scenario time [now]: the requests that fire,
    in firing order, and the requests that stay queued. *)
Definition drain (now : double) (q : list OwnershipRequest)
    : list OwnershipRequest * list OwnershipRequest :=
  (firing_order (filter (fun r => due now r = true) q),
   filter (fun r => due now r = false) q).

(** The transitions fired at each scenario time of a timeline. *)
Fixpoint run_timeline (times : list double) (q : list OwnershipRequest)
    : list (list OwnershipRequest) :=
  match times with
  | [] => []
  | now :: later =>
      let '(fired, rest) := drain now q in fired :: run_timeline later rest
  end.

(** Requests without and with a scheduled time. *)
Definition is_asap (r : OwnershipRequest) : Prop := request_time r = None.

Definition is_timed (r : OwnershipRequest) : Prop :=
  exists t, request_time r = Some t.

End TrickHLAModel.

(** ** The Trick thread coordinator

    Only TrickThreadCoordinator.hh is part of the sources: the members
    below are the ones it declares, and the bodies of the operations
    are modelled from the spec. *)

Module TrickHLA.

(** Modelled from the spec: the states of a thread. *)
Inductive ThreadState : Type :=
| NOT_ASSOCIATED
| READY_TO_SEND
| SEND_PENDING
| DATA_AVAILABLE
| DATA_CONSUMED.

(** [TrickHLA::Manager], as far as the coordinator reads it: the
    object instance names, by object index. *)
Record Manager : Type := mkManager {
  object_names : list string
}.

(** The members of [TrickThreadCoordinator]. The per-thread tables are
    keyed by thread id; the per-object tables are keyed by object
    instance name and reached from an object index through the
    manager. Modelled from the spec: [obj_thread] is the thread that
    owns an object (the spec's thread association). *)
Record TrickThreadCoordinator : Type := mkTrickThreadCoordinator {
  manager : Manager;
  thread_state : gmap nat ThreadState;
  data_cycle_micros_per_thread : gmap nat Z;
  data_cycle_micros_per_obj : gmap string Z;
  obj_thread : gmap string nat;
  any_thread_associated : bool;
  main_thread_data_cycle_micros : Z
}.

Abbreviation Prog := (M Empty_set TrickThreadCoordinator).

Local Open Scope prog_scope.

(** Nearest integer to [n / d] for [0 < d], ties to even. *)
Definition round_half_even (n d : Z) : Z :=
  let q := n / d in
  let r := n mod d in
  if 2 * r <? d then q
  else if d <? 2 * r then q + 1
  else if Z.even q then q else q + 1.

(** Modelled from the spec: seconds to microseconds, rounding half to
    even at the microsecond; a value that is not finite gives 0. *)
Definition seconds_to_micros (x : double) : Z :=
  match Prim2SF x with
  | S754_finite sign m e =>
      let n := (if sign then Z.neg m else Z.pos m) * 1000000 in
      if 0 <=? e then n * 2 ^ e else round_half_even n (2 ^ (- e))
  | _ => 0
  end.

(** Modelled from the spec: [initialize_thread_state]. *)
Definition initialize_thread_state (main_thread_data_cycle_time : double)
    : Prog unit :=
  modify (fun c =>
    mkTrickThreadCoordinator (manager c) ∅ ∅ ∅ ∅ false
      (seconds_to_micros main_thread_data_cycle_time)).

(** [cycle] is a positive data cycle and [k] times [main] for a positive
    integer [k]. *)
Definition positive_integer_multiple (cycle main : Z) : Prop :=
  0 < cycle /\ exists k, 0 < k /\ cycle = k * main.

(** [cycle] is a positive integer multiple of [main], in C++:
    [main > 0 && cycle > 0 && cycle % main == 0]. *)
Definition is_positive_multiple (cycle main : Z) : bool :=
  (0 <? main) && (0 <? cycle) && (Z.rem cycle main =? 0).

(** The object is already associated to a thread other than
    [thread_id]. *)
Definition owned_by_other (c : TrickThreadCoordinator) (thread_id : nat)
    (name : string) : bool :=
  match obj_thread c !! name with
  | Some t => negb (Nat.eqb t thread_id)
  | None => false
  end.

Definition record_object (thread_id : nat) (cycle : Z)
    (c : TrickThreadCoordinator) (name : string) : TrickThreadCoordinator :=
  mkTrickThreadCoordinator (manager c) (thread_state c)
    (data_cycle_micros_per_thread c)
    (<[name := cycle]> (data_cycle_micros_per_obj c))
    (<[name := thread_id]> (obj_thread c))
    (any_thread_associated c) (main_thread_data_cycle_micros c).

Definition record_thread (thread_id : nat) (cycle : Z)
    (c : TrickThreadCoordinator) : TrickThreadCoordinator :=
  mkTrickThreadCoordinator (manager c)
    (<[thread_id := READY_TO_SEND]> (thread_state c))
    (<[thread_id := cycle]> (data_cycle_micros_per_thread c))
    (data_cycle_micros_per_obj c) (obj_thread c)
    true (main_thread_data_cycle_micros c).

(** Modelled from the spec: [associate_to_trick_child_thread]; the
    object instance names are given as the list of names. *)
Definition associate_to_trick_child_thread (thread_id : nat)
    (data_cycle : double) (obj_instance_names : list string) : Prog unit :=
  if Nat.eqb thread_id 0 then
    terminate_with_message
      [ MStr "thread id 0 is reserved for the main thread" ]
  else
    let cycle := seconds_to_micros data_cycle in
    main <- gets main_thread_data_cycle_micros ;;
    if negb (is_positive_multiple cycle main) then
      terminate_with_message
        [ MStr "data cycle is not a positive integer multiple of the main thread data cycle" ]
    else
      c <- gets (fun c => c) ;;
      if existsb (owned_by_other c thread_id) obj_instance_names then
        terminate_with_message
          [ MStr "object instance is already associated to another thread" ]
      else
        modify (fun c =>
          record_thread thread_id cycle
            (fold_left (record_object thread_id cycle) obj_instance_names c)).

(** Modelled from the spec: [on_data_cycle_boundary_for_thread],
    [sim_time_micros % cycle[thread_id] == 0]; the spec gives no
    result for a thread without a cycle. *)
Definition on_data_cycle_boundary_for_thread (c : TrickThreadCoordinator)
    (thread_id : nat) (sim_time_micros : Z) : option bool :=
  match data_cycle_micros_per_thread c !! thread_id with
  | Some cycle => Some (Z.rem sim_time_micros cycle =? 0)
  | None => None
  end.

(** Object [obj_index] is associated to a thread. *)
Definition obj_associated (c : TrickThreadCoordinator) (obj_index : nat)
    : bool :=
  match object_names (manager c) !! obj_index with
  | Some name => bool_decide (is_Some (obj_thread c !! name))
  | None => false
  end.

(** Modelled from the spec: [get_data_cycle_time_micros_for_obj],
    a lookup with fallback. *)
Definition get_data_cycle_time_micros_for_obj (c : TrickThreadCoordinator)
    (obj_index : nat) (default_data_cycle_micros : Z) : Z :=
  match object_names (manager c) !! obj_index with
  | Some name =>
      match data_cycle_micros_per_obj c !! name with
      | Some cycle => cycle
      | None => default_data_cycle_micros
      end
  | None => default_data_cycle_micros
  end.

(** A thread is associated when its state is not [NOT_ASSOCIATED]. *)
Definition thread_associated (c : TrickThreadCoordinator) (thread_id : nat)
    : Prop :=
  exists st, thread_state c !! thread_id = Some st /\ st <> NOT_ASSOCIATED.

(** The coordinator states the operations can produce: the state after
    [initialize_thread_state], and the state after every association
    that returned. *)
Inductive reachable : TrickThreadCoordinator -> Prop :=
| reachable_init c main_cycle c' t :
    initialize_thread_state main_cycle c = (Returned tt c', t) ->
    reachable c'
| reachable_associate c thread_id data_cycle names c' t :
    reachable c ->
    associate_to_trick_child_thread thread_id data_cycle names c
      = (Returned tt c', t) ->
    reachable c'.

(** The tables agree: an object has an owning thread exactly when it
    has a data cycle, recorded data cycles are positive, a thread is
    associated exactly when it has a data cycle, and
    [any_thread_associated] says whether some thread is. *)
Definition tables_consistent (c : TrickThreadCoordinator) : Prop :=
  (forall name,
      is_Some (obj_thread c !! name)
      <-> is_Some (data_cycle_micros_per_obj c !! name))
  /\ (forall name cycle,
        data_cycle_micros_per_obj c !! name = Some cycle -> 0 < cycle)
  /\ (forall t cycle,
        data_cycle_micros_per_thread c !! t = Some cycle -> 0 < cycle)
  /\ (forall t,
        thread_associated c t
        <-> is_Some (data_cycle_micros_per_thread c !! t))
  /\ (any_thread_associated c = true <-> exists t, thread_associated c t).

End TrickHLA.

(** ** Sample states *)

Module Samples.
Import SpaceFOM.

#[local] Set Warnings "-inexact-float".

Definition zero3 : vec3 := (0%float, 0%float, 0%float).

Definition identity_attitude : QuaternionData := mkQuaternionData 1 zero3.

(** A frame state at rest at position [p], stamped [t]. *)
Definition at_rest (p : vec3) (t : double) : SpaceTimeCoordinateData :=
  mkSpaceTimeCoordinateData p zero3 identity_attitude zero3 t.

(** A strategy that leaves the state as it is. *)
Definition hold_strategy : Strategy :=
  mkStrategy (fun _ _ c => (c, 0)) (fun _ _ => mkQuaternionData 0 zero3).

(** A compensator with the given settings; its frame's working state
    is at [working], its buffer and its lag compensation data at
    [buffered]. *)
Definition compensator (dt tol : double) (rcv : bool)
    (working buffered : SpaceTimeCoordinateData) : RefFrameLagCompInteg :=
  mkRefFrameLagCompInteg false (mkRefFrameBase working buffered)
    (mkAttribute rcv) 0 buffered (mkQuaternionData 0 zero3) 0 dt tol.

Definition origin : SpaceTimeCoordinateData := at_rest zero3 0.

Definition moved : SpaceTimeCoordinateData :=
  at_rest (1%float, 0%float, 0%float) 0.

Definition framework_at (now : double) : Framework :=
  mkFramework now 0.5 false.

(** A coordinator before [initialize_thread_state], with two objects
    known to the manager. *)
Definition fresh_coordinator : TrickHLA.TrickThreadCoordinator :=
  TrickHLA.mkTrickThreadCoordinator (TrickHLA.mkManager ["A"; "B"]) ∅ ∅ ∅ ∅
    false 0.

(** The state a program ends in, or [c] when it terminated. *)
Definition state_after {E St A} (prog : M E St A) (c : St) : St :=
  match fst (prog c) with Returned _ c' => c' | Terminated _ => c end.

Definition ten_ms : double := 0.01.

Definition twenty_ms : double := 0.02.

(** Main thread at 10 ms. *)
Definition initialized_coordinator : TrickHLA.TrickThreadCoordinator :=
  state_after (TrickHLA.initialize_thread_state ten_ms) fresh_coordinator.

(** Main thread at 10 ms, child thread 1 at 20 ms with object "A". *)
Definition one_child_coordinator : TrickHLA.TrickThreadCoordinator :=
  state_after (TrickHLA.associate_to_trick_child_thread 1 twenty_ms ["A"])
    initialized_coordinator.

End Samples.

(** ** Observers and variations *)

Module Variations.
Import SpaceFOM.

Definition is_print (e : event) : bool :=
  match e with Ev_print_lag_comp_data => true | _ => false end.

(** The calls that move frame data, by direction. *)
Definition is_unpack (e : event) : bool :=
  match e with Ev_unpack_into_working_data => true | _ => false end.

Definition is_pack (e : event) : bool :=
  match e with Ev_pack_from_working_data => true | _ => false end.

(** The trace-level notice of send_lag_compensation (lines 109-112). *)
Definition send_notice (fw : Framework) : message :=
  [ MStr "****** RefFrameLagCompInteg::send_lag_compensation():";
    MLine 109; MEndl;
    MStr " scenario-time:"; MDouble (scenario_time fw); MEndl;
    MStr "     lookahead:"; MDouble (lookahead_seconds fw); MEndl;
    MStr " adjusted-time:";
    MDouble (scenario_time fw + lookahead_seconds fw)%float; MEndl ].

(** The trace-level notice of receive_lag_compensation (lines 157-160). *)
Definition receive_notice (fw : Framework) (c : RefFrameLagCompInteg)
    : message :=
  let data_t := time (packing_data (ref_frame c)) in
  [ MStr "******* RefFrameLagCompInteg::receive_lag_compensation():";
    MLine 157; MEndl;
    MStr "  scenario-time:"; MDouble (scenario_time fw); MEndl;
    MStr "      data-time:"; MDouble data_t; MEndl;
    MStr " comp-time-step:"; MDouble (scenario_time fw - data_t)%float; MEndl ].

(** The debug output around compensate: a heading and the data. *)
Definition debug_report (heading : string) (on : bool) : list event :=
  if on then [ Ev_cout [ MStr heading; MEndl ]; Ev_print_lag_comp_data ]
  else [].

(** A strategy that computes as [s] does and reports the status
    [status_of] gives. *)
Definition with_status
    (status_of : double -> double -> RefFrameLagCompInteg -> Z)
    (s : Strategy) : Strategy :=
  mkStrategy
    (fun t_begin t_end c =>
       (fst (@compensate_impl s t_begin t_end c), status_of t_begin t_end c))
    (@derivative_first_impl s).

(** The compensator at a cycle in which the state attribute carries the
    given received flag. *)
Definition with_received (rcv : bool) (c : RefFrameLagCompInteg)
    : RefFrameLagCompInteg :=
  mkRefFrameLagCompInteg (debug c) (ref_frame c) (mkAttribute rcv)
    (compensate_dt c) (lag_comp_data c) (Q_dot c) (integ_t c) (integ_dt c)
    (integ_tol c).

(** The compensator with other values left over in compensate_dt,
    lag_comp_data and Q_dot. *)
Definition with_stale (dt0 : double) (d0 : SpaceTimeCoordinateData)
    (q0 : QuaternionData) (c : RefFrameLagCompInteg) : RefFrameLagCompInteg :=
  mkRefFrameLagCompInteg (debug c) (ref_frame c) (state_attr c) dt0 d0 q0
    (integ_t c) (integ_dt c) (integ_tol c).

(** The compensator with other values left over in the frame's buffer. *)
Definition with_buffer (p0 : SpaceTimeCoordinateData)
    (c : RefFrameLagCompInteg) : RefFrameLagCompInteg :=
  with_ref_frame (mkRefFrameBase (working_data (ref_frame c)) p0) c.

Import TrickHLAModel.

(** The same request in the other direction. *)
Definition mirrored (r : OwnershipRequest) : OwnershipRequest :=
  mkOwnershipRequest (attribute_name r)
    (match action r with PULL => PUSH | PUSH => PULL end)
    (request_time r).

(** The queue a handler program leaves. *)
Definition requests_after (prog : TrickHLAModel.Prog unit)
    (h : SineOwnershipHandler) : list OwnershipRequest :=
  requests (Samples.state_after prog h).

End Variations.

(** * Properties *)

(** ** Doubles: the order *)

Lemma SFcompare_antisym (x y : spec_float) :
  SFcompare y x = option_map CompOpp (SFcompare x y).
Proof.
  destruct x as [sx | sx | | sx mx ex], y as [sy | sy | | sy my ey];
    try reflexivity;
    try (destruct sx; reflexivity);
    try (destruct sy; reflexivity);
    try (destruct sx, sy; reflexivity).
  unfold SFcompare.
  change (PosDef.Pos.compare_cont Eq my mx) with (Pos.compare my mx).
  change (PosDef.Pos.compare_cont Eq mx my) with (Pos.compare mx my).
  rewrite (Z.compare_antisym ex ey), (Pos.compare_antisym mx my).
  destruct sx, sy; try reflexivity; unfold option_map; f_equal;
    destruct (ex ?= ey)%Z; try reflexivity; cbn [CompOpp];
    destruct (mx ?= my)%positive; reflexivity.
Qed.

Lemma SFltb_asym (x y : spec_float) : SFltb x y = true -> SFltb y x = false.
Proof.
  unfold SFltb. rewrite (SFcompare_antisym x y).
  destruct (SFcompare x y) as [[ | | ] | ]; cbn; discriminate || reflexivity.
Qed.

Lemma ltb_asym (x y : double) : (x <? y)%float = true -> (y <? x)%float = false.
Proof. rewrite !ltb_spec. apply SFltb_asym. Qed.

(** ** The integrating lag compensator *)

Section LagCompensation.
Import SpaceFOM.

(** C1, as stated, fails: with integ_dt = 1 and integ_tol = 0 the
    relation integ_dt > integ_tol > 0 is violated, and initialize
    returns. *)
Lemma initialize_accepts_zero_tolerance :
  let c := Samples.compensator 1 0 false Samples.origin Samples.origin in
  config_ok c = false /\
  initialize c = (Returned tt c, [Ev_base_initialize]).
Proof. split; reflexivity. Qed.

(** C1, amended: initialize terminates the process with its message
    whenever integ_dt < integ_tol; whenever integ_tol < integ_dt it
    does not terminate, whatever the sign of integ_tol, and does what
    the base class initialize does. *)
Theorem initialize_checks_dt_below_tol (c : RefFrameLagCompInteg) :
  ((integ_dt c <? integ_tol c)%float = true ->
     exists msg, initialize c = (Terminated msg, [])
                 /\ In (MDouble (integ_dt c)) msg
                 /\ In (MDouble (integ_tol c)) msg) /\
  ((integ_tol c <? integ_dt c)%float = true ->
     initialize c = RefFrameLagCompBase_initialize c).
Proof.
  split; intros H.
  - unfold initialize, bind, gets, when. rewrite H. cbn.
    eexists. split; [reflexivity|]. cbn. tauto.
  - apply ltb_asym in H.
    unfold initialize, bind, gets, when. rewrite H. reflexivity.
Qed.

Lemma initialize_checks_dt_below_tol_witness :
  (exists msg,
      initialize (Samples.compensator 1 2 false Samples.origin Samples.origin)
      = (Terminated msg, [])) /\
  initialize (Samples.compensator 1 (-1) false Samples.origin Samples.origin)
  = RefFrameLagCompBase_initialize
      (Samples.compensator 1 (-1) false Samples.origin Samples.origin).
Proof.
  split.
  - destruct (proj1 (initialize_checks_dt_below_tol
                (Samples.compensator 1 2 false Samples.origin Samples.origin))
                eq_refl) as [msg [Hmsg _]].
    exists msg. exact Hmsg.
  - exact (proj2 (initialize_checks_dt_below_tol
                (Samples.compensator 1 (-1) false Samples.origin Samples.origin))
                eq_refl).
Defined.

(** *** Send and receive *)

Section Flows.
Context (fw : Framework) {strategy : Strategy}.

Ltac run_flow :=
  unfold send_lag_compensation, receive_lag_compensation,
    pack_from_working_data, unpack_into_working_data, load_lag_comp_data,
    unload_lag_comp_data, Q_dot_derivative_first, compensate,
    print_lag_comp_data, cout, get_scenario_time, get_lookahead_seconds,
    get_time, DebugHandler_show, is_received,
    bind, gets, modify, emit, ret, when.

(** C3: send_lag_compensation takes the scenario time as t_begin and
    t_begin plus the lookahead as t_end, copies the working state
    into the lag compensation data, computes Q-dot from its attitude
    and angular velocity, invokes compensate(t_begin, t_end) exactly
    once, and then writes the lag compensation data to the publish
    buffer, in that order. *)
Theorem send_lag_compensation_sequence (c : RefFrameLagCompInteg) :
  let t_begin := scenario_time fw in
  let t_end := (t_begin + lookahead_seconds fw)%float in
  let r := send_lag_compensation fw c in
  data_flow (trace_of r)
  = [ Ev_pack_from_working_data;
      Ev_load_lag_comp_data;
      Ev_derivative_first (att (working_data (ref_frame c)))
                          (ang_vel (working_data (ref_frame c)));
      Ev_compensate t_begin t_end;
      Ev_unload_lag_comp_data ]
  /\ length (filter (fun e => is_compensate e = true) (trace_of r)) = 1%nat
  /\ lag_comp_data (send_input fw c) = working_data (ref_frame c)
  /\ final_state r
     = Some (unloaded (fst (compensate_impl t_begin t_end (send_input fw c)))).
Proof.
  cbv zeta. unfold send_input.
  run_flow.
  destruct (show_trace fw), (debug c) eqn:Hd; cbn; rewrite ?Hd; cbn;
    destruct (compensate_impl _ _ _) as [c' status]; cbn;
    destruct (debug c'); cbn; repeat split; reflexivity.
Qed.

(** A run of receive_lag_compensation: its data flow, its calls of
    compensate and its final state. *)
Lemma receive_lag_compensation_run (c : RefFrameLagCompInteg) :
  let t_end := scenario_time fw in
  let t_begin := time (packing_data (ref_frame c)) in
  let r := receive_lag_compensation fw c in
  if received (state_attr c) then
    data_flow (trace_of r)
    = [ Ev_load_lag_comp_data;
        Ev_derivative_first (att (packing_data (ref_frame c)))
                            (ang_vel (packing_data (ref_frame c)));
        Ev_compensate t_begin t_end;
        Ev_unload_lag_comp_data;
        Ev_unpack_into_working_data ]
    /\ filter (fun e => is_compensate e = true) (trace_of r)
       = [ Ev_compensate t_begin t_end ]
    /\ final_state r
       = Some (unpacked (unloaded
           (fst (compensate_impl t_begin t_end (receive_input fw c)))))
  else
    data_flow (trace_of r)
    = [ Ev_unload_lag_comp_data; Ev_unpack_into_working_data ]
    /\ filter (fun e => is_compensate e = true) (trace_of r) = []
    /\ final_state r
       = Some (unpacked (unloaded
           (with_compensate_dt (t_end - t_begin)%float c))).
Proof.
  cbv zeta. unfold receive_input.
  run_flow.
  destruct (received (state_attr c)) eqn:Hr, (show_trace fw),
    (debug c) eqn:Hd; cbn; rewrite ?Hr; cbn; rewrite ?Hd; cbn;
    try (repeat split; reflexivity);
    destruct (compensate_impl _ _ _) as [c' status]; cbn;
    destruct (debug c'); cbn; repeat split; reflexivity.
Qed.

(** C2: receive_lag_compensation takes the scenario time as t_end and
    the data time of the received record as t_begin and stores
    t_end - t_begin in compensate_dt; if the state attribute was
    received it loads the lag compensation data, recomputes Q-dot and
    invokes compensate(t_begin, t_end); in both cases it then unloads
    the lag compensation data and calls the frame's unpack routine. *)
Theorem receive_lag_compensation_sequence (c : RefFrameLagCompInteg) :
  let t_end := scenario_time fw in
  let t_begin := time (packing_data (ref_frame c)) in
  let r := receive_lag_compensation fw c in
  compensate_dt (receive_input fw c) = (t_end - t_begin)%float
  /\ if received (state_attr c) then
       data_flow (trace_of r)
       = [ Ev_load_lag_comp_data;
           Ev_derivative_first (att (packing_data (ref_frame c)))
                               (ang_vel (packing_data (ref_frame c)));
           Ev_compensate t_begin t_end;
           Ev_unload_lag_comp_data;
           Ev_unpack_into_working_data ]
       /\ final_state r
          = Some (unpacked (unloaded
              (fst (compensate_impl t_begin t_end (receive_input fw c)))))
     else
       data_flow (trace_of r)
       = [ Ev_unload_lag_comp_data; Ev_unpack_into_working_data ]
       /\ final_state r
          = Some (unpacked (unloaded
              (with_compensate_dt (t_end - t_begin)%float c))).
Proof.
  cbv zeta. split; [reflexivity|].
  pose proof (receive_lag_compensation_run c) as H. cbv zeta in H.
  destruct (received (state_attr c)); tauto.
Qed.

(** C9: receive_lag_compensation stores scenario time minus data time
    in compensate_dt on every call: it is the value in the state
    handed to compensate when the attribute was received, and when the
    attribute was not received compensate is not invoked and the
    compensator ends with that compensate_dt and with lag_comp_data,
    Q_dot, the integration settings and the debug flag unchanged. *)
Theorem receive_overwrites_compensate_dt (c : RefFrameLagCompInteg) :
  let t_end := scenario_time fw in
  let t_begin := time (packing_data (ref_frame c)) in
  let r := receive_lag_compensation fw c in
  exists c',
    final_state r = Some c' /\
    (received (state_attr c) = true ->
       compensate_dt (receive_input fw c) = (t_end - t_begin)%float /\
       c' = unpacked (unloaded
              (fst (compensate_impl t_begin t_end (receive_input fw c))))) /\
    (received (state_attr c) = false ->
       filter (fun e => is_compensate e = true) (trace_of r) = [] /\
       compensate_dt c' = (t_end - t_begin)%float /\
       lag_comp_data c' = lag_comp_data c /\
       Q_dot c' = Q_dot c /\
       integ_t c' = integ_t c /\
       integ_dt c' = integ_dt c /\
       integ_tol c' = integ_tol c /\
       debug c' = debug c /\
       state_attr c' = state_attr c).
Proof.
  cbv zeta.
  pose proof (receive_lag_compensation_run c) as H. cbv zeta in H.
  destruct (received (state_attr c)) eqn:Hr; destruct H as (_ & Hn & Hf);
    eexists; (split; [exact Hf|]); split; intros Hx;
    try discriminate.
  - split; reflexivity.
  - split; [exact Hn|].
    unfold unpacked. cbn. rewrite Hr. repeat split; reflexivity.
Qed.

(** C4: when the state attribute was not received, the working state
    of the frame after receive_lag_compensation (after the unpack step)
    is the working state before the call. *)
Theorem receive_without_data_keeps_working_state
    (c : RefFrameLagCompInteg) :
  received (state_attr c) = false ->
  exists c',
    final_state (receive_lag_compensation fw c) = Some c' /\
    working_data (ref_frame c') = working_data (ref_frame c).
Proof.
  intros Hr.
  pose proof (receive_lag_compensation_run c) as H. cbv zeta in H.
  rewrite Hr in H. destruct H as (_ & _ & Hf).
  eexists. split; [exact Hf|].
  unfold unpacked. cbn. rewrite Hr. reflexivity.
Qed.

End Flows.

Lemma receive_without_data_keeps_working_state_witness :
  let c := Samples.compensator 1 0.5 false Samples.moved Samples.origin in
  exists c',
    final_state (receive_lag_compensation (Samples.framework_at 2)
                   (strategy := Samples.hold_strategy) c) = Some c' /\
    working_data (ref_frame c') = working_data (ref_frame c).
Proof.
  exact (receive_without_data_keeps_working_state
           (Samples.framework_at 2) (strategy := Samples.hold_strategy)
           (Samples.compensator 1 0.5 false Samples.moved Samples.origin)
           eq_refl).
Defined.

End LagCompensation.

(** ** The integration settings *)

Section IntegrationSettings.
Import SpaceFOM.PhysicalEntity.
Context {Base : Type}.

Local Open Scope prog_scope.

(** C10: set_integ_dt and set_integ_tolerance store their argument as
    it is, change nothing else, and neither fail nor check: after any
    state, any pair of values can be installed, also one that violates
    integ_dt > integ_tol > 0. *)
Theorem setters_store_without_check
    (c : PhysicalEntityLagCompInteg Base) (v : double) :
  set_integ_dt v c
  = (Returned tt
       (mkPhysicalEntityLagCompInteg (base c) (integ_t c) v (integ_tol c)), [])
  /\ set_integ_tolerance v c
     = (Returned tt
          (mkPhysicalEntityLagCompInteg (base c) (integ_t c) (integ_dt c) v), [])
  /\ (forall dt tol,
        exists c',
          (set_integ_dt dt ;;; set_integ_tolerance tol) c = (Returned tt c', [])
          /\ integ_dt c' = dt /\ integ_tol c' = tol
          /\ integ_t c' = integ_t c /\ base c' = base c)
  /\ (exists c',
        (set_integ_dt 1 ;;; set_integ_tolerance 2) c = (Returned tt c', [])
        /\ config_ok c' = false).
Proof.
  repeat split.
  - intros dt tol. eexists. repeat split.
  - eexists. split; reflexivity.
Qed.

End IntegrationSettings.

(** ** The ownership script of the example handler *)

Section OwnershipScript.
Import TrickHLAModel.

Lemma schedule_insert_asap (r : OwnershipRequest) (a t : list OwnershipRequest) :
  is_asap r -> Forall is_asap a -> Forall is_timed t ->
  schedule_insert r (a ++ t) = a ++ r :: t.
Proof.
  intros Hr Ha Ht. induction Ha as [|e a He Ha IH]; cbn.
  - destruct Ht as [|e t [te He] Ht]; [reflexivity|].
    cbn. unfold fires_no_later. rewrite He, Hr. reflexivity.
  - unfold fires_no_later at 1. rewrite He. rewrite IH. reflexivity.
Qed.

Lemma schedule_insert_timed_tail (r : OwnershipRequest)
    (t : list OwnershipRequest) :
  is_timed r -> Forall is_timed t -> Forall is_timed (schedule_insert r t).
Proof.
  intros Hr Ht. induction Ht as [|e t He Ht IH]; cbn.
  - constructor; [exact Hr|constructor].
  - destruct (fires_no_later e r).
    + constructor; assumption.
    + constructor; [exact Hr|]. constructor; assumption.
Qed.

Lemma schedule_insert_timed (r : OwnershipRequest) (a t : list OwnershipRequest) :
  is_timed r -> Forall is_asap a ->
  schedule_insert r (a ++ t) = a ++ schedule_insert r t.
Proof.
  intros Hr Ha. induction Ha as [|e a He Ha IH]; cbn; [reflexivity|].
  unfold fires_no_later at 1. rewrite He. rewrite IH. reflexivity.
Qed.

(** An as-soon-as-possible request fires before any timed request,
    whatever the queue. *)
Lemma firing_order_asap_first (q : list OwnershipRequest) :
  exists a t,
    firing_order q = a ++ t /\ Forall is_asap a /\ Forall is_timed t.
Proof.
  unfold firing_order.
  assert (H : forall acc,
             (exists a t, acc = a ++ t /\ Forall is_asap a /\ Forall is_timed t) ->
             exists a t,
               fold_left (fun acc r => schedule_insert r acc) q acc = a ++ t
               /\ Forall is_asap a /\ Forall is_timed t).
  { induction q as [|r q IH]; intros acc Hacc; cbn; [exact Hacc|].
    apply IH. destruct Hacc as (a & t & -> & Ha & Ht).
    destruct (request_time r) as [tr|] eqn:Hr.
    - exists a, (schedule_insert r t). repeat split.
      + apply schedule_insert_timed; [exists tr; exact Hr|exact Ha].
      + exact Ha.
      + apply schedule_insert_timed_tail; [exists tr; exact Hr|exact Ht].
    - exists (a ++ [r]), t. repeat split.
      + rewrite schedule_insert_asap by assumption.
        rewrite <- app_assoc. reflexivity.
      + apply Forall_app. split; [exact Ha|]. constructor; [exact Hr|constructor].
      + exact Ht. }
  apply H. exists [], []. repeat split; constructor.
Qed.

(** C6: in the mixed test case initialize_callback appends exactly
    five requests, in this order: push all as soon as possible, pull
    all at 3.0, push all at 5.0, pull all at 7.0, push "Value" at 9.0;
    with the scenario time advancing from 0 to 9 in steps of one
    second, the push without a time fires first and exactly one
    request fires at each of 3, 5, 7 and 9, in that order, and none at
    the other times. *)
Theorem mixed_case_script (obj : Object) (h : SineOwnershipHandler) :
  let script :=
    [ mkOwnershipRequest None PUSH None;
      mkOwnershipRequest None PULL (Some 3%float);
      mkOwnershipRequest None PUSH (Some 5%float);
      mkOwnershipRequest None PULL (Some 7%float);
      mkOwnershipRequest (Some "Value") PUSH (Some 9%float) ] in
  initialize_callback obj h
  = (Returned tt (mkSineOwnershipHandler (Some obj) (requests h ++ script)), [])
  /\ firing_order script = script
  /\ run_timeline [0; 1; 2; 3; 4; 5; 6; 7; 8; 9]%float script
     = [ [mkOwnershipRequest None PUSH None]; []; [];
         [mkOwnershipRequest None PULL (Some 3%float)]; [];
         [mkOwnershipRequest None PUSH (Some 5%float)]; [];
         [mkOwnershipRequest None PULL (Some 7%float)]; [];
         [mkOwnershipRequest (Some "Value") PUSH (Some 9%float)] ].
Proof.
  cbv zeta. split; [|split; vm_compute; reflexivity].
  unfold initialize_callback, initialize_callback_case, TEST_CASE,
    OwnershipHandler_initialize_callback, get_attribute_FOM_names,
    push_ownership, pull_ownership_at, push_ownership_at,
    push_ownership_attr_at, enqueue, bind, gets, modify.
  cbn. rewrite <- !app_assoc. reflexivity.
Qed.

End OwnershipScript.

(** ** The thread coordinator *)

Section Coordinator.
Import TrickHLA.

Lemma is_positive_multiple_spec (cycle main : Z) :
  is_positive_multiple cycle main = true <-> positive_integer_multiple cycle main.
Proof.
  unfold is_positive_multiple, positive_integer_multiple.
  rewrite !andb_true_iff, !Z.ltb_lt, Z.eqb_eq. split.
  - intros [[Hm Hc] Hr]. split; [exact Hc|].
    exists (cycle / main).
    assert (Hd : cycle = main * (cycle / main)).
    { rewrite Z.rem_mod_nonneg in Hr by lia.
      apply Z.div_exact; lia. }
    split; [|lia].
    apply Z.div_str_pos. split; [lia|].
    destruct (Z.le_gt_cases main cycle) as [|Hlt]; [assumption|].
    rewrite Z.div_small in Hd by lia. lia.
  - intros [Hc (k & Hk & ->)].
    assert (0 < main) by nia.
    repeat split; try assumption.
    rewrite Z.rem_mul by lia. reflexivity.
Qed.

Lemma owned_by_other_spec (c : TrickThreadCoordinator) (thread_id : nat)
    (names : list string) :
  existsb (owned_by_other c thread_id) names = true <->
  exists name t,
    name ∈ names /\ obj_thread c !! name = Some t /\ t <> thread_id.
Proof.
  rewrite existsb_exists. unfold owned_by_other. split.
  - intros (name & Hin & H). apply list_elem_of_In in Hin.
    destruct (obj_thread c !! name) as [t|] eqn:Ht; [|discriminate].
    exists name, t. repeat split; try assumption.
    apply negb_true_iff, Nat.eqb_neq in H. exact H.
  - intros (name & t & Hin & Ht & Hne). exists name.
    split; [apply list_elem_of_In; exact Hin|].
    rewrite Ht. apply negb_true_iff, Nat.eqb_neq. exact Hne.
Qed.

(** What recording a list of objects does to the tables. *)
Lemma record_objects_tables (thread_id : nat) (cycle : Z) (names : list string)
    (c : TrickThreadCoordinator) :
  let c' := fold_left (record_object thread_id cycle) names c in
  manager c' = manager c
  /\ thread_state c' = thread_state c
  /\ data_cycle_micros_per_thread c' = data_cycle_micros_per_thread c
  /\ any_thread_associated c' = any_thread_associated c
  /\ main_thread_data_cycle_micros c' = main_thread_data_cycle_micros c
  /\ (forall name,
        obj_thread c' !! name
        = if decide (name ∈ names) then Some thread_id
          else obj_thread c !! name)
  /\ (forall name,
        data_cycle_micros_per_obj c' !! name
        = if decide (name ∈ names) then Some cycle
          else data_cycle_micros_per_obj c !! name).
Proof.
  cbv zeta. revert c. induction names as [|n names IH]; intros c; cbn.
  - repeat split; intros name; rewrite decide_False;
      auto using not_elem_of_nil.
  - destruct (IH (record_object thread_id cycle c n))
      as (Hm & Hs & Ht & Ha & Hmain & Ho & Hc).
    assert (Hcase : forall (V : Type) (v : V) (m : gmap string V) name,
              (if decide (name ∈ names) then Some v else <[n := v]> m !! name)
              = (if decide (name ∈ n :: names) then Some v else m !! name)).
    { intros V v m name.
      destruct (decide (name ∈ names)) as [Hin|Hin].
      - rewrite decide_True; [reflexivity|]. apply elem_of_cons. auto.
      - destruct (decide (name = n)) as [->|Hne].
        + rewrite lookup_insert_eq, decide_True; [reflexivity|].
          apply elem_of_cons. auto.
        + rewrite lookup_insert_ne by done.
          rewrite decide_False; [reflexivity|].
          apply not_elem_of_cons. auto. }
    repeat split; try assumption.
    + intros name. rewrite Ho. apply Hcase.
    + intros name. rewrite Hc. apply Hcase.
Qed.

(** The three checks of an association, and what it does when they pass. *)
Lemma associate_run (thread_id : nat) (data_cycle : double)
    (names : list string) (c : TrickThreadCoordinator) :
  let cycle := seconds_to_micros data_cycle in
  let checks :=
    negb (Nat.eqb thread_id 0)
    && is_positive_multiple cycle (main_thread_data_cycle_micros c)
    && negb (existsb (owned_by_other c thread_id) names) in
  if checks then
    associate_to_trick_child_thread thread_id data_cycle names c
    = (Returned tt
         (record_thread thread_id cycle
            (fold_left (record_object thread_id cycle) names c)), [])
  else
    exists msg,
      associate_to_trick_child_thread thread_id data_cycle names c
      = (Terminated msg, []).
Proof.
  cbv zeta. unfold associate_to_trick_child_thread.
  destruct (Nat.eqb thread_id 0); cbn; [eexists; reflexivity|].
  unfold bind, gets. cbn.
  destruct (is_positive_multiple _ _); cbn; [|eexists; reflexivity].
  destruct (existsb _ _); cbn; [eexists; reflexivity|reflexivity].
Qed.

(** C5: associate_to_trick_child_thread terminates with a message
    exactly when thread_id is 0, or data_cycle is not a positive integer
    multiple of the main thread's data cycle, or one of the object names
    is already associated to another thread; otherwise it returns, the
    thread is recorded with its data cycle, every named object is
    recorded for that thread with that cycle, and
    any_thread_associated is true. *)
Theorem associate_rejects_or_records (thread_id : nat) (data_cycle : double)
    (names : list string) (c : TrickThreadCoordinator) :
  let cycle := seconds_to_micros data_cycle in
  let r := associate_to_trick_child_thread thread_id data_cycle names c in
  let rejected :=
    thread_id = 0%nat
    \/ ~ positive_integer_multiple cycle (main_thread_data_cycle_micros c)
    \/ exists name t,
         name ∈ names /\ obj_thread c !! name = Some t /\ t <> thread_id in
  (rejected -> exists msg, r = (Terminated msg, []))
  /\ (~ rejected ->
      exists c',
        r = (Returned tt c', [])
        /\ any_thread_associated c' = true
        /\ thread_state c' !! thread_id = Some READY_TO_SEND
        /\ data_cycle_micros_per_thread c' !! thread_id = Some cycle
        /\ (forall name, name ∈ names ->
              obj_thread c' !! name = Some thread_id
              /\ data_cycle_micros_per_obj c' !! name = Some cycle)
        /\ (forall name, name ∉ names ->
              obj_thread c' !! name = obj_thread c !! name
              /\ data_cycle_micros_per_obj c' !! name
                 = data_cycle_micros_per_obj c !! name)
        /\ (forall t, t <> thread_id ->
              thread_state c' !! t = thread_state c !! t
              /\ data_cycle_micros_per_thread c' !! t
                 = data_cycle_micros_per_thread c !! t)).
Proof.
  cbv zeta.
  pose proof (associate_run thread_id data_cycle names c) as H. cbv zeta in H.
  pose proof (is_positive_multiple_spec (seconds_to_micros data_cycle)
                (main_thread_data_cycle_micros c)) as Hmul.
  pose proof (owned_by_other_spec c thread_id names) as Hown.
  destruct (Nat.eqb thread_id 0) eqn:Hid; cbn in H.
  { apply Nat.eqb_eq in Hid. split; [intros _; exact H|]. intros Hn. tauto. }
  apply Nat.eqb_neq in Hid.
  destruct (is_positive_multiple _ _) eqn:Hpm; cbn in H.
  2:{ split; [intros _; exact H|]. intros Hn. exfalso. apply Hn. right. left.
      intros Hp. apply Hmul in Hp. discriminate. }
  destruct (existsb _ _) eqn:Hex; cbn in H.
  { split; [intros _; exact H|]. intros Hn. exfalso. apply Hn. right. right.
    apply Hown. reflexivity. }
  split.
  - intros [Hz | [Hp | Ho]].
    + contradiction.
    + exfalso. apply Hp, Hmul. reflexivity.
    + apply Hown in Ho. discriminate.
  - intros _. eexists. split; [exact H|].
    destruct (record_objects_tables thread_id (seconds_to_micros data_cycle)
                names c) as (Hm & Hs & Ht & Ha & Hmain & Ho & Hc).
    cbv zeta in *. cbn.
    split; [reflexivity|]. split; [apply lookup_insert_eq|].
    split; [apply lookup_insert_eq|].
    split; [|split].
    + intros name Hin. rewrite Ho, Hc, !decide_True by exact Hin. done.
    + intros name Hin. rewrite Ho, Hc, !decide_False by exact Hin. done.
    + intros t Hne. rewrite !lookup_insert_ne by done. rewrite Hs, Ht. done.
Qed.

Lemma associate_rejects_or_records_witness :
  (exists msg,
      associate_to_trick_child_thread 0 Samples.twenty_ms ["A"]
        Samples.initialized_coordinator = (Terminated msg, []))
  /\ (exists c',
        associate_to_trick_child_thread 1 Samples.twenty_ms ["A"]
          Samples.initialized_coordinator = (Returned tt c', [])
        /\ any_thread_associated c' = true
        /\ data_cycle_micros_per_thread c' !! 1%nat = Some 20000).
Proof.
  split.
  - apply (proj1 (associate_rejects_or_records 0 Samples.twenty_ms ["A"]
                    Samples.initialized_coordinator)).
    left. reflexivity.
  - destruct (proj2 (associate_rejects_or_records 1 Samples.twenty_ms ["A"]
                       Samples.initialized_coordinator))
      as (c' & Hr & Ha & _ & Hc & _).
    + intros [H | [H | (name & t & _ & H & _)]].
      * discriminate H.
      * apply H. split; [reflexivity|]. exists 2. split; reflexivity.
      * change (obj_thread Samples.initialized_coordinator)
          with (∅ : gmap string nat) in H.
        rewrite lookup_empty in H. discriminate H.
    + exists c'. repeat split; assumption.
Defined.

(** *** Invariants of the coordinator tables *)

Lemma initialize_thread_state_consistent (main_cycle : double)
    (c c' : TrickThreadCoordinator) (t : list Empty_set) :
  initialize_thread_state main_cycle c = (Returned tt c', t) ->
  tables_consistent c'.
Proof.
  unfold initialize_thread_state, modify. intros H.
  injection H as <- _. unfold tables_consistent, thread_associated. cbn.
  split; [|split; [|split; [|split; [|split]]]].
  - intros name. rewrite !lookup_empty.
    split; intros [x Hx]; discriminate.
  - intros name cycle. rewrite lookup_empty. discriminate.
  - intros t0 cycle. rewrite lookup_empty. discriminate.
  - intros t0. rewrite !lookup_empty. split.
    + intros (st & Hst & _). discriminate.
    + intros [x Hx]. discriminate.
  - discriminate.
  - intros (t0 & st & Hst & _). rewrite lookup_empty in Hst. discriminate.
Qed.

Lemma associate_consistent (thread_id : nat) (data_cycle : double)
    (names : list string) (c c' : TrickThreadCoordinator)
    (t : list Empty_set) :
  tables_consistent c ->
  associate_to_trick_child_thread thread_id data_cycle names c
  = (Returned tt c', t) ->
  tables_consistent c'.
Proof.
  intros (Hdom & Hobj & Hthr & Hassoc & Hany) Hrun.
  pose proof (associate_run thread_id data_cycle names c) as H. cbv zeta in H.
  destruct (negb (Nat.eqb thread_id 0)
            && is_positive_multiple (seconds_to_micros data_cycle)
                 (main_thread_data_cycle_micros c)
            && negb (existsb (owned_by_other c thread_id) names)) eqn:Hchk.
  2:{ destruct H as [msg H]. rewrite H in Hrun. discriminate. }
  rewrite H in Hrun. injection Hrun as <- _.
  apply andb_true_iff in Hchk as [Hchk _].
  apply andb_true_iff in Hchk as [_ Hpm].
  apply is_positive_multiple_spec in Hpm as [Hpos _].
  destruct (record_objects_tables thread_id (seconds_to_micros data_cycle)
              names c) as (Hm & Hs & Ht & Ha & Hmain & Ho & Hc).
  cbv zeta in *.
  unfold tables_consistent, thread_associated. cbn.
  split; [|split; [|split; [|split]]].
  - intros name. rewrite Ho, Hc.
    destruct (decide (name ∈ names)); [|apply Hdom].
    split; intros _; eexists; reflexivity.
  - intros name cycle. rewrite Hc.
    destruct (decide (name ∈ names)); [|apply Hobj].
    intros [= <-]. exact Hpos.
  - intros t0 cycle. rewrite Ht.
    destruct (decide (t0 = thread_id)) as [->|Hne].
    + rewrite lookup_insert_eq. intros [= <-]. exact Hpos.
    + rewrite lookup_insert_ne by done. apply Hthr.
  - intros t0. rewrite Hs, Ht.
    destruct (decide (t0 = thread_id)) as [->|Hne].
    + rewrite !lookup_insert_eq. split.
      * intros _. eexists. reflexivity.
      * intros _. exists READY_TO_SEND. split; [reflexivity|discriminate].
    + rewrite !lookup_insert_ne by done. apply Hassoc.
  - split; [|reflexivity]. intros _. exists thread_id, READY_TO_SEND.
    rewrite Hs, lookup_insert_eq. split; [reflexivity|discriminate].
Qed.

Lemma reachable_consistent (c : TrickThreadCoordinator) :
  reachable c -> tables_consistent c.
Proof.
  induction 1 as [c main_cycle c' t Hinit | c thread_id data_cycle names c' t _ IH Hrun].
  - eapply initialize_thread_state_consistent. exact Hinit.
  - eapply associate_consistent; [exact IH|exact Hrun].
Qed.

(** C7: for an associated thread, on_data_cycle_boundary_for_thread
    changes no state and returns true exactly when sim_time_micros
    modulo the thread's data cycle is 0. *)
Theorem boundary_for_thread_is_mod_zero (c : TrickThreadCoordinator)
    (thread_id : nat) :
  reachable c ->
  thread_associated c thread_id ->
  exists cycle,
    data_cycle_micros_per_thread c !! thread_id = Some cycle
    /\ 0 < cycle
    /\ forall sim_time_micros,
         on_data_cycle_boundary_for_thread c thread_id sim_time_micros
         = Some (bool_decide (sim_time_micros mod cycle = 0)).
Proof.
  intros Hreach Hassoc.
  destruct (reachable_consistent c Hreach) as (_ & _ & Hthr & Hiff & _).
  apply Hiff in Hassoc as [cycle Hcycle].
  exists cycle. split; [exact Hcycle|]. split; [eapply Hthr; exact Hcycle|].
  intros t. unfold on_data_cycle_boundary_for_thread. rewrite Hcycle.
  f_equal.
  assert (Hpos : 0 < cycle) by (eapply Hthr; exact Hcycle).
  destruct (Z.eqb_spec (Z.rem t cycle) 0) as [Hr|Hr].
  - symmetry. apply bool_decide_eq_true.
    apply Z.rem_divide in Hr; [|lia]. apply Z.mod_divide in Hr; lia.
  - symmetry. apply bool_decide_eq_false. intros Hm. apply Hr.
    apply Z.rem_divide; [lia|]. apply Z.mod_divide; lia.
Qed.

Lemma one_child_coordinator_reachable :
  reachable Samples.one_child_coordinator.
Proof.
  eapply reachable_associate
    with (c := Samples.initialized_coordinator) (thread_id := 1%nat)
         (data_cycle := Samples.twenty_ms) (names := ["A"]) (t := []).
  - eapply reachable_init
      with (c := Samples.fresh_coordinator) (main_cycle := Samples.ten_ms)
           (t := []).
    reflexivity.
  - vm_compute. reflexivity.
Qed.

Lemma boundary_for_thread_is_mod_zero_witness :
  exists cycle,
    data_cycle_micros_per_thread Samples.one_child_coordinator !! 1%nat
    = Some cycle
    /\ 0 < cycle
    /\ forall sim_time_micros,
         on_data_cycle_boundary_for_thread Samples.one_child_coordinator 1
           sim_time_micros
         = Some (bool_decide (sim_time_micros mod cycle = 0)).
Proof.
  apply (boundary_for_thread_is_mod_zero Samples.one_child_coordinator 1).
  - exact one_child_coordinator_reachable.
  - exists READY_TO_SEND. split; [vm_compute; reflexivity|discriminate].
Defined.

(** C8, as stated, fails: object 0 of the sample coordinator is
    associated to thread 1 with a data cycle of 20000 microseconds, and
    get_data_cycle_time_micros_for_obj(0, 20000) returns the default
    20000. *)
Lemma default_returned_for_associated_object :
  obj_associated Samples.one_child_coordinator 0 = true
  /\ get_data_cycle_time_micros_for_obj Samples.one_child_coordinator 0 20000
     = 20000.
Proof. split; vm_compute; reflexivity. Qed.

(** C8, amended: get_data_cycle_time_micros_for_obj(i, d) returns d when
    object i is not associated to a thread, and the data cycle recorded
    for the object when it is; so it returns d exactly when object i is
    not associated or d is the object's data cycle. *)
Theorem data_cycle_for_obj_lookup (c : TrickThreadCoordinator)
    (obj_index : nat) (d : Z) :
  reachable c ->
  (obj_associated c obj_index = false ->
     get_data_cycle_time_micros_for_obj c obj_index d = d)
  /\ (obj_associated c obj_index = true ->
      exists name cycle,
        object_names (manager c) !! obj_index = Some name
        /\ data_cycle_micros_per_obj c !! name = Some cycle
        /\ 0 < cycle
        /\ get_data_cycle_time_micros_for_obj c obj_index d = cycle)
  /\ (get_data_cycle_time_micros_for_obj c obj_index d = d
      <-> obj_associated c obj_index = false
          \/ exists name,
               object_names (manager c) !! obj_index = Some name
               /\ data_cycle_micros_per_obj c !! name = Some d).
Proof.
  intros Hreach.
  destruct (reachable_consistent c Hreach) as (Hdom & Hobj & _).
  unfold obj_associated, get_data_cycle_time_micros_for_obj.
  destruct (object_names (manager c) !! obj_index) as [name|] eqn:Hname.
  2:{ repeat split; try discriminate; auto. }
  destruct (data_cycle_micros_per_obj c !! name) as [cycle|] eqn:Hcycle.
  - assert (Hsome : is_Some (obj_thread c !! name)).
    { apply Hdom. eexists. exact Hcycle. }
    rewrite bool_decide_eq_true_2 by exact Hsome.
    split; [discriminate|]. split.
    + intros _. exists name, cycle. repeat split; try assumption.
      eapply Hobj. exact Hcycle.
    + split.
      * intros ->. right. exists name. split; [reflexivity|exact Hcycle].
      * intros [Hf | (name' & [= <-] & Hd)]; [discriminate|].
        rewrite Hcycle in Hd. injection Hd as ->. reflexivity.
  - assert (Hnone : ~ is_Some (obj_thread c !! name)).
    { intros Hs. apply Hdom in Hs. rewrite Hcycle in Hs.
      destruct Hs as [x Hx]. discriminate. }
    rewrite bool_decide_eq_false_2 by exact Hnone.
    split; [reflexivity|]. split; [discriminate|].
    split; auto.
Qed.

Lemma data_cycle_for_obj_lookup_witness :
  get_data_cycle_time_micros_for_obj Samples.one_child_coordinator 1 5000 = 5000
  /\ exists name cycle,
       object_names (manager Samples.one_child_coordinator) !! 0%nat = Some name
       /\ data_cycle_micros_per_obj Samples.one_child_coordinator !! name
          = Some cycle
       /\ 0 < cycle
       /\ get_data_cycle_time_micros_for_obj Samples.one_child_coordinator 0 5000
          = cycle.
Proof.
  split.
  - apply (proj1 (data_cycle_for_obj_lookup Samples.one_child_coordinator 1 5000
                    one_child_coordinator_reachable)).
    vm_compute. reflexivity.
  - apply (proj1 (proj2 (data_cycle_for_obj_lookup
                           Samples.one_child_coordinator 0 5000
                           one_child_coordinator_reachable))).
    vm_compute. reflexivity.
Defined.

End Coordinator.

(** ** Further properties of the lag compensation flows *)

Section FlowRuns.
Import SpaceFOM Variations.
Context (fw : Framework) {strategy : Strategy}.

Ltac run_flow :=
  unfold send_lag_compensation, receive_lag_compensation,
    pack_from_working_data, unpack_into_working_data, load_lag_comp_data,
    unload_lag_comp_data, Q_dot_derivative_first, compensate,
    print_lag_comp_data, cout, get_scenario_time, get_lookahead_seconds,
    get_time, DebugHandler_show, is_received,
    bind, gets, modify, emit, ret, when.

(** The complete run of send_lag_compensation. *)
Lemma send_lag_compensation_run (c : RefFrameLagCompInteg) :
  let t_begin := scenario_time fw in
  let t_end := (t_begin + lookahead_seconds fw)%float in
  let c2 := fst (compensate_impl t_begin t_end (send_input fw c)) in
  send_lag_compensation fw c
  = (Returned tt (unloaded c2),
     (if show_trace fw then [ Ev_cout (send_notice fw) ] else [])
     ++ [ Ev_pack_from_working_data; Ev_load_lag_comp_data;
          Ev_derivative_first (att (working_data (ref_frame c)))
                              (ang_vel (working_data (ref_frame c))) ]
     ++ debug_report "Send data before compensation: " (debug c)
     ++ [ Ev_compensate t_begin t_end ]
     ++ debug_report "Send data after compensation: " (debug c2)
     ++ [ Ev_unload_lag_comp_data ]).
Proof.
  cbv zeta. unfold send_input, send_notice, debug_report.
  run_flow.
  destruct (show_trace fw), (debug c) eqn:Hd; cbn; rewrite ?Hd; cbn;
    destruct (compensate_impl _ _ _) as [c' status]; cbn;
    destruct (debug c'); reflexivity.
Qed.

(** The complete run of receive_lag_compensation. *)
Lemma receive_lag_compensation_full_run (c : RefFrameLagCompInteg) :
  let t_end := scenario_time fw in
  let t_begin := time (packing_data (ref_frame c)) in
  let c2 := fst (compensate_impl t_begin t_end (receive_input fw c)) in
  receive_lag_compensation fw c
  = if received (state_attr c) then
      (Returned tt (unpacked (unloaded c2)),
       (if show_trace fw then [ Ev_cout (receive_notice fw c) ] else [])
       ++ [ Ev_load_lag_comp_data;
            Ev_derivative_first (att (packing_data (ref_frame c)))
                                (ang_vel (packing_data (ref_frame c))) ]
       ++ debug_report "Receive data before compensation: " (debug c)
       ++ [ Ev_compensate t_begin t_end ]
       ++ debug_report "Receive data after compensation: " (debug c2)
       ++ [ Ev_unload_lag_comp_data; Ev_unpack_into_working_data ])
    else
      (Returned tt
         (unpacked (unloaded (with_compensate_dt (t_end - t_begin)%float c))),
       (if show_trace fw then [ Ev_cout (receive_notice fw c) ] else [])
       ++ [ Ev_unload_lag_comp_data; Ev_unpack_into_working_data ]).
Proof.
  cbv zeta. unfold receive_input, receive_notice, debug_report.
  run_flow.
  destruct (received (state_attr c)) eqn:Hr, (show_trace fw),
    (debug c) eqn:Hd; cbn; rewrite ?Hr; cbn; rewrite ?Hd; cbn;
    try reflexivity;
    destruct (compensate_impl _ _ _) as [c' status]; cbn;
    destruct (debug c'); reflexivity.
Qed.

End FlowRuns.

Section FlowProperties.
Import SpaceFOM Variations.
Context (fw : Framework) {strategy : Strategy}.

(** X1: the status compensate returns is discarded: a strategy that
    computes the same states and reports any other status gives the same
    run of send_lag_compensation and of receive_lag_compensation, calls
    and final state alike. *)
Theorem compensate_status_is_discarded
    (status_of : double -> double -> RefFrameLagCompInteg -> Z)
    (c : RefFrameLagCompInteg) :
  send_lag_compensation fw (strategy := with_status status_of strategy) c
  = send_lag_compensation fw c
  /\ receive_lag_compensation fw (strategy := with_status status_of strategy) c
     = receive_lag_compensation fw c.
Proof.
  split.
  - rewrite (@send_lag_compensation_run fw strategy c).
    rewrite (@send_lag_compensation_run fw (with_status status_of strategy) c).
    reflexivity.
  - rewrite (@receive_lag_compensation_full_run fw strategy c).
    rewrite (@receive_lag_compensation_full_run fw
               (with_status status_of strategy) c).
    reflexivity.
Qed.

(** X2: the output of send_lag_compensation follows the flags and has
    its place in the run: the trace-level notice comes first, exactly
    when the debug handler shows it; the lag compensation data is
    printed after the Q-dot computation and before compensate exactly
    when debug is set, and after compensate and before the unload
    exactly when debug is set in the state compensate left; nothing else
    is printed, and the notice reports the same t_end that compensate
    receives. *)
Theorem send_output_follows_flags (c : RefFrameLagCompInteg) :
  let t_begin := scenario_time fw in
  let t_end := (t_begin + lookahead_seconds fw)%float in
  let c2 := fst (compensate_impl t_begin t_end (send_input fw c)) in
  let r := send_lag_compensation fw c in
  trace_of r
  = (if show_trace fw then [ Ev_cout (send_notice fw) ] else [])
    ++ [ Ev_pack_from_working_data; Ev_load_lag_comp_data;
         Ev_derivative_first (att (working_data (ref_frame c)))
                             (ang_vel (working_data (ref_frame c))) ]
    ++ debug_report "Send data before compensation: " (debug c)
    ++ [ Ev_compensate t_begin t_end ]
    ++ debug_report "Send data after compensation: " (debug c2)
    ++ [ Ev_unload_lag_comp_data ]
  /\ filter (fun e => is_diagnostic e = true) (trace_of r)
     = (if show_trace fw then [ Ev_cout (send_notice fw) ] else [])
       ++ debug_report "Send data before compensation: " (debug c)
       ++ debug_report "Send data after compensation: " (debug c2)
  /\ length (filter (fun e => is_print e = true) (trace_of r))
     = (Nat.b2n (debug c) + Nat.b2n (debug c2))%nat
  /\ In (MDouble t_end) (send_notice fw)
  /\ In (Ev_compensate t_begin t_end) (trace_of r).
Proof.
  cbv zeta. rewrite (send_lag_compensation_run fw c).
  unfold trace_of, debug_report. cbn [snd].
  split; [reflexivity|].
  destruct (show_trace fw), (debug c),
    (debug (fst (compensate_impl _ _ (send_input fw c))));
    cbn; repeat split; auto 20.
Qed.

(** X3: the output of receive_lag_compensation and its place in the
    run: the trace-level notice comes first, exactly when the debug
    handler shows it; the lag compensation data is printed only in a
    cycle in which the state attribute was received, after the Q-dot
    computation and before compensate when debug is set, and after
    compensate and before the unload when debug is set in the state
    compensate left; without received data nothing but the notice is
    printed, whatever the debug flag. *)
Theorem receive_output_follows_flags (c : RefFrameLagCompInteg) :
  let t_end := scenario_time fw in
  let t_begin := time (packing_data (ref_frame c)) in
  let c2 := fst (compensate_impl t_begin t_end (receive_input fw c)) in
  let r := receive_lag_compensation fw c in
  trace_of r
  = (if show_trace fw then [ Ev_cout (receive_notice fw c) ] else [])
    ++ (if received (state_attr c) then
          [ Ev_load_lag_comp_data;
            Ev_derivative_first (att (packing_data (ref_frame c)))
                                (ang_vel (packing_data (ref_frame c))) ]
          ++ debug_report "Receive data before compensation: " (debug c)
          ++ [ Ev_compensate t_begin t_end ]
          ++ debug_report "Receive data after compensation: " (debug c2)
        else [])
    ++ [ Ev_unload_lag_comp_data; Ev_unpack_into_working_data ]
  /\ filter (fun e => is_diagnostic e = true) (trace_of r)
     = (if show_trace fw then [ Ev_cout (receive_notice fw c) ] else [])
       ++ (if received (state_attr c) then
             debug_report "Receive data before compensation: " (debug c)
             ++ debug_report "Receive data after compensation: " (debug c2)
           else [])
  /\ length (filter (fun e => is_print e = true) (trace_of r))
     = (if received (state_attr c)
        then Nat.b2n (debug c) + Nat.b2n (debug c2) else 0)%nat.
Proof.
  cbv zeta. rewrite (receive_lag_compensation_full_run fw c).
  unfold debug_report.
  destruct (debug (fst (compensate_impl _ _ (receive_input fw c)))),
    (received (state_attr c)), (show_trace fw), (debug c);
    cbn; repeat split; reflexivity.
Qed.

(** X4: the flows keep their direction: the body of
    send_lag_compensation makes no call of unpack_into_working_data, the
    body of receive_lag_compensation makes no call of
    pack_from_working_data, and neither calls the base class initialize
    (what the strategy's compensate does inside its own call is not
    part of the run recorded here). *)
Theorem flows_keep_their_direction (c : RefFrameLagCompInteg) :
  let s := send_lag_compensation fw c in
  let r := receive_lag_compensation fw c in
  filter (fun e => is_unpack e = true) (trace_of s) = []
  /\ filter (fun e => is_pack e = true) (trace_of r) = []
  /\ ~ In Ev_base_initialize (trace_of s)
  /\ ~ In Ev_base_initialize (trace_of r).
Proof.
  cbv zeta. rewrite (send_lag_compensation_run fw c).
  rewrite (receive_lag_compensation_full_run fw c). unfold debug_report.
  destruct (debug (fst (compensate_impl _ _ (receive_input fw c)))),
    (debug (fst (compensate_impl _ _ (send_input fw c)))),
    (received (state_attr c)), (show_trace fw), (debug c);
    cbn; repeat split;
    intros H; repeat (destruct H as [H|H]; [discriminate H|]); exact H.
Qed.

(** X5: a receive without data after any receive changes nothing the
    frame sees: whatever the first call did, a following
    receive_lag_compensation in a cycle without received data, at any
    scenario time, leaves the working state, the lag compensation data
    and Q_dot as the first call left them. *)
Theorem receive_without_data_after_receive (fw' : Framework)
    (c : RefFrameLagCompInteg) :
  exists c1 c2,
    final_state (receive_lag_compensation fw c) = Some c1
    /\ final_state (receive_lag_compensation fw' (with_received false c1))
       = Some c2
    /\ working_data (ref_frame c2) = working_data (ref_frame c1)
    /\ packing_data (ref_frame c2) = packing_data (ref_frame c1)
    /\ lag_comp_data c2 = lag_comp_data c1
    /\ Q_dot c2 = Q_dot c1.
Proof.
  rewrite (receive_lag_compensation_full_run fw c).
  destruct (received (state_attr c)); eexists; eexists;
    (split; [reflexivity|]);
    rewrite (@receive_lag_compensation_full_run fw' strategy);
    cbn [with_received state_attr received];
    (split; [reflexivity|]);
    unfold unpacked; cbn;
    repeat match goal with
           | |- context [if ?b then _ else _] => destruct b; cbn
           end;
    repeat split; reflexivity.
Qed.

(** X11: send_lag_compensation starts from the working state alone:
    whatever was left over in compensate_dt, lag_comp_data, Q_dot and the
    frame's buffer is overwritten before compensate is called, so the
    run (calls, output and final state) does not depend on it. *)
Theorem send_ignores_stale_data (dt0 : double) (d0 p0 : SpaceTimeCoordinateData)
    (q0 : QuaternionData) (c : RefFrameLagCompInteg) :
  send_lag_compensation fw (with_buffer p0 (with_stale dt0 d0 q0 c))
  = send_lag_compensation fw c.
Proof.
  rewrite !send_lag_compensation_run. reflexivity.
Qed.

(** X12: receive_lag_compensation never reads the compensate_dt it
    finds, and in a cycle with received data it starts from the frame's
    buffer alone: what was left over in lag_comp_data and Q_dot is
    overwritten before compensate is called, so the run does not depend
    on it. *)
Theorem receive_ignores_stale_data (dt0 : double) (d0 : SpaceTimeCoordinateData)
    (q0 : QuaternionData) (c : RefFrameLagCompInteg) :
  receive_lag_compensation fw (with_compensate_dt dt0 c)
  = receive_lag_compensation fw c
  /\ (received (state_attr c) = true ->
      receive_lag_compensation fw (with_stale dt0 d0 q0 c)
      = receive_lag_compensation fw c).
Proof.
  split.
  - rewrite !receive_lag_compensation_full_run. reflexivity.
  - intros Hr. rewrite !receive_lag_compensation_full_run.
    cbn [with_stale state_attr]. rewrite Hr. reflexivity.
Qed.

End FlowProperties.

Lemma receive_ignores_stale_data_witness :
  let c := Samples.compensator 1 0.5 true Samples.origin Samples.moved in
  SpaceFOM.receive_lag_compensation (Samples.framework_at 2)
    (strategy := Samples.hold_strategy)
    (Variations.with_stale 7 Samples.origin Samples.identity_attitude c)
  = SpaceFOM.receive_lag_compensation (Samples.framework_at 2)
      (strategy := Samples.hold_strategy) c.
Proof.
  exact (proj2 (receive_ignores_stale_data (Samples.framework_at 2)
                  (strategy := Samples.hold_strategy) 7 Samples.origin
                  Samples.identity_attitude
                  (Samples.compensator 1 0.5 true Samples.origin Samples.moved))
           eq_refl).
Defined.

(** ** Further properties of initialize *)

Section InitializeEdges.
Import SpaceFOM.

Lemma SFeqb_refl_false (s : spec_float) : SFeqb s s = false -> s = S754_nan.
Proof.
  unfold SFeqb. destruct s as [sg | sg | | sg m e];
    try reflexivity; try (destruct sg; discriminate).
  unfold SFcompare.
  change (PosDef.Pos.compare_cont Eq m m) with (Pos.compare m m).
  rewrite (Z.compare_refl e), (Pos.compare_refl m). destruct sg; discriminate.
Qed.

Lemma is_nan_Prim2SF (x : double) : is_nan x = true -> Prim2SF x = S754_nan.
Proof.
  unfold is_nan. intros H. apply negb_true_iff in H.
  rewrite FloatAxioms.eqb_spec in H.
  apply SFeqb_refl_false. exact H.
Qed.

Lemma ltb_nan (x y : double) :
  is_nan x = true \/ is_nan y = true -> (x <? y)%float = false.
Proof.
  rewrite FloatAxioms.ltb_spec.
  intros [H | H]; apply is_nan_Prim2SF in H; rewrite H.
  - reflexivity.
  - unfold SFltb. destruct (Prim2SF x); reflexivity.
Qed.

(** X6: initialize does not reject settings that are not numbers: when
    integ_dt or integ_tol is NaN the comparison is false, no message is
    produced, and initialize goes on to the base class initialize. *)
Theorem initialize_accepts_nan (c : RefFrameLagCompInteg) :
  is_nan (integ_dt c) = true \/ is_nan (integ_tol c) = true ->
  initialize c = RefFrameLagCompBase_initialize c
  /\ config_ok c = false.
Proof.
  intros H. split.
  - unfold initialize, bind, gets, when. rewrite (ltb_nan _ _ H). reflexivity.
  - unfold config_ok. destruct H as [H | H].
    + rewrite (ltb_nan (integ_tol c) (integ_dt c)) by (right; exact H).
      reflexivity.
    + rewrite (ltb_nan (integ_tol c) (integ_dt c)) by (left; exact H).
      reflexivity.
Qed.

Lemma initialize_accepts_nan_witness :
  let c := Samples.compensator nan 1 false Samples.origin Samples.origin in
  initialize c = RefFrameLagCompBase_initialize c /\ config_ok c = false.
Proof.
  exact (initialize_accepts_nan
           (Samples.compensator nan 1 false Samples.origin Samples.origin)
           (or_introl eq_refl)).
Defined.

End InitializeEdges.

(** ** Further properties of the ownership callback *)

Section CallbackCases.
Import TrickHLAModel Variations.

#[local] Set Warnings "-inexact-float".

(** The loop over the attribute names appends one request per name, in
    the order of the names. *)
Lemma for_each_enqueue (names : list string)
    (request_for : string -> OwnershipRequest) (h : SineOwnershipHandler) :
  for_each names (fun n => enqueue (request_for n)) h
  = (Returned tt
       (mkSineOwnershipHandler (object h)
          (requests h ++ map request_for names)), []).
Proof.
  revert h. induction names as [|n names IH]; intros h; cbn [for_each map].
  - rewrite app_nil_r. destruct h; reflexivity.
  - unfold bind, enqueue at 1, modify. cbn beta iota.
    rewrite IH. cbn [object requests app]. rewrite <- app_assoc. reflexivity.
Qed.

Ltac run_callback :=
  unfold initialize_callback_case, OwnershipHandler_initialize_callback,
    get_attribute_FOM_names,
    pull_ownership, pull_ownership_at, pull_ownership_attr,
    pull_ownership_attr_at,
    push_ownership, push_ownership_at, push_ownership_attr,
    push_ownership_attr_at;
  unfold bind at 1 2; unfold modify at 1, gets at 1; cbn [object requests];
  repeat (unfold bind at 1; unfold enqueue at 1, modify at 1;
          cbn [object requests]);
  rewrite ?for_each_enqueue;
  unfold enqueue, modify, ret; cbn [object requests app map];
  rewrite <- ?app_assoc; cbn [app].

(** X7: in the pull test case (switch value 0) the callback binds the
    object and appends, behind the requests already queued: pull all as
    soon as possible, pull all at 3.0, pull all at 5.0, pull "Time" as
    soon as possible, pull "Value" at 6.1, and then one pull at 7.0 for
    every attribute FOM name of the object, in the order of the names;
    so the queue grows by five plus the number of attributes. *)
Theorem pull_case_script (obj : Object) (h : SineOwnershipHandler) :
  let per_attribute :=
    map (fun n => mkOwnershipRequest (Some n) PULL (Some 7%float))
      (attribute_FOM_names obj) in
  let added :=
    [ mkOwnershipRequest None PULL None;
      mkOwnershipRequest None PULL (Some 3%float);
      mkOwnershipRequest None PULL (Some 5%float);
      mkOwnershipRequest (Some "Time") PULL None;
      mkOwnershipRequest (Some "Value") PULL (Some 6.1%float) ]
    ++ per_attribute in
  initialize_callback_case 0 obj h
  = (Returned tt (mkSineOwnershipHandler (Some obj) (requests h ++ added)), [])
  /\ length added = (5 + length (attribute_FOM_names obj))%nat
  /\ Forall (fun r => action r = PULL) added.
Proof.
  cbv zeta. split; [|split].
  - run_callback. reflexivity.
  - cbn. rewrite length_map. reflexivity.
  - repeat (constructor; [reflexivity|]).
    apply Forall_map. apply Forall_forall. intros n _. reflexivity.
Qed.

(** X8: the push test case (switch value 1) is the pull test case in
    the other direction: from the same handler and object both append
    the same number of requests, and each request of the push case is
    the request of the pull case at the same position with PUSH for
    PULL, attribute and time unchanged. *)
Theorem push_case_mirrors_pull_case (obj : Object) (h : SineOwnershipHandler) :
  exists added,
    requests_after (initialize_callback_case 0 obj) h = requests h ++ added
    /\ requests_after (initialize_callback_case 1 obj) h
       = requests h ++ map mirrored added
    /\ Forall (fun r => action r = PUSH) (map mirrored added).
Proof.
  eexists. unfold requests_after, Samples.state_after. split; [|split].
  - run_callback. cbn. reflexivity.
  - run_callback. cbn. rewrite List.map_map. reflexivity.
  - cbn [map]. repeat (apply Forall_cons; split; [reflexivity|]).
    rewrite List.map_map. apply Forall_map. apply Forall_forall.
    intros n _. reflexivity.
Qed.

(** X9: for every switch value other than 0, 1 and 2 the callback
    queues nothing: it only binds the object and leaves the queue as it
    was. *)
Theorem other_cases_queue_nothing (test_case : Z) (obj : Object)
    (h : SineOwnershipHandler) :
  test_case <> 0 -> test_case <> 1 -> test_case <> 2 ->
  initialize_callback_case test_case obj h
  = (Returned tt (mkSineOwnershipHandler (Some obj) (requests h)), []).
Proof.
  intros H0 H1 H2.
  destruct test_case as [|[p|[p|p|]|]|p]; try contradiction;
    run_callback; reflexivity.
Qed.

Lemma other_cases_queue_nothing_witness :
  initialize_callback_case 3 (mkObject ["Time"; "Value"])
    (mkSineOwnershipHandler None [mkOwnershipRequest None PULL None])
  = (Returned tt
       (mkSineOwnershipHandler (Some (mkObject ["Time"; "Value"]))
          [mkOwnershipRequest None PULL None]), []).
Proof.
  apply (other_cases_queue_nothing 3 (mkObject ["Time"; "Value"])
           (mkSineOwnershipHandler None [mkOwnershipRequest None PULL None]));
    discriminate.
Defined.

(** X10: whatever the switch value, the callback only appends: it
    returns, binds the handler to the object it is given, keeps every
    request already queued in its place, and appends requests that
    depend on the switch value and the object only, not on the handler
    it finds. *)
Theorem callback_only_appends (test_case : Z) (obj : Object) :
  exists added,
    forall h,
      initialize_callback_case test_case obj h
      = (Returned tt (mkSineOwnershipHandler (Some obj) (requests h ++ added)),
         []).
Proof.
  destruct test_case as [|[p|[p|p|]|]|p];
    first [ exists []; intros h; run_callback; rewrite app_nil_r; reflexivity
          | eexists; intros h; run_callback; reflexivity ].
Qed.

End CallbackCases.
